(** * junctional: Result and Option containers

    A shallow embedding of [src/result.ts] and [src/option.ts] together with
    the JavaScript semantics the two classes rely on: strict comparison with
    the two absence sentinels, exceptions ([throw] / [try]-[catch]), string
    concatenation with its implicit conversion, and the settlement of
    promises awaited by the two asynchronous factories. *)

From Stdlib Require Import String ZArith List Bool DecimalString.
From ExtLib Require Import Structures.Monad Structures.MonadExc.
Import ListNotations.
Import MonadNotation.

Local Open Scope string_scope.
Local Open Scope monad_scope.

(* ===================================================================== *)
(** * JavaScript values                                                   *)
(* ===================================================================== *)

(** The payloads the containers hold.  Both classes are generic in their
    payload; the code only ever inspects a payload by comparing it with
    [undefined] or [null] and, in [Result.unwrap], by concatenating it to a
    string.  A number [VNum n] stands for the integer [n] of the safe range,
    up to [2^53 - 1] in magnitude, where every integer is a number of the
    language and prints in plain decimal notation; an [Error] object is its
    [name] and [message], converted as [Error.prototype.toString] does;
    other objects are left out. *)
Inductive Value : Type :=
| VUndefined
| VNull
| VBool (b : bool)
| VNum (n : Z)
| VStr (s : string)
| VSymbol (description : string)
| VError (name message : string).

(** [v === undefined] and [v === null]. *)
Definition is_undefined (v : Value) : bool :=
  match v with VUndefined => true | _ => false end.

Definition is_null (v : Value) : bool :=
  match v with VNull => true | _ => false end.

(** [Error(message)]: a fresh error object named "Error". *)
Definition Error (message : string) : Value := VError "Error" message.

Definition TypeError (message : string) : Value := VError "TypeError" message.

(* ===================================================================== *)
(** * Completions: normal return or thrown exception                      *)
(* ===================================================================== *)

Inductive Completion (A : Type) : Type :=
| Normal (a : A)
| Throw (x : Value).

Arguments Normal {A} a.
Arguments Throw {A} x.

#[global] Instance Monad_Completion : Monad Completion :=
  {| ret := fun _ a => Normal a
   ; bind := fun _ _ c k =>
       match c with
       | Normal a => k a
       | Throw x => Throw x
       end |}.

(** [raise x] is [throw x]; [catch body handler] is
    [try { body } catch (error) { handler }]. *)
#[global] Instance Exc_Completion : MonadExc Value Completion :=
  {| raise := fun _ x => Throw x
   ; catch := fun _ body handler =>
       match body with
       | Normal a => Normal a
       | Throw x => handler x
       end |}.

(** A JavaScript function: called on its argument list, it returns or
    throws. *)
Definition JSFunction : Type := list Value -> Completion Value.

(** Two completions are observably alike when both return the same value
    or both raise. *)
Definition same_outcome {A : Type} (c1 c2 : Completion A) : Prop :=
  match c1, c2 with
  | Normal a, Normal b => a = b
  | Throw _, Throw _ => True
  | _, _ => False
  end.

Definition raises {A : Type} (c : Completion A) : Prop :=
  exists x, c = Throw x.

Definition returns {A : Type} (c : Completion A) : Prop :=
  exists a, c = Normal a.

(* ===================================================================== *)
(** * String conversion and concatenation                                 *)
(* ===================================================================== *)

(** [Error.prototype.toString]. *)
Definition error_to_string (name message : string) : string :=
  if String.eqb name "" then message
  else if String.eqb message "" then name
  else name ++ ": " ++ message.

(** [String(v)], the stringification of a value.  The decimal printed for
    a number is what the language prints on the safe integers only, see
    [prints_as_modelled]. *)
Definition stringify (v : Value) : string :=
  match v with
  | VUndefined => "undefined"
  | VNull => "null"
  | VBool true => "true"
  | VBool false => "false"
  | VNum n => NilZero.string_of_int (Z.to_int n)
  | VStr s => s
  | VSymbol description => "Symbol(" ++ description ++ ")"
  | VError name message => error_to_string name message
  end.

Definition is_symbol (v : Value) : bool :=
  match v with VSymbol _ => true | _ => false end.

(** The conversion [s + v] applies to [v] when [s] is a string.  A symbol
    has no implicit conversion: the concatenation raises a [TypeError]. *)
Definition ToString (v : Value) : Completion string :=
  if is_symbol v then
    raise (TypeError "Cannot convert a Symbol value to a string")
  else
    ret (stringify v).



(** [s + v] for a string [s]. *)
Definition string_add (s : string) (v : Value) : Completion string :=
  t <- ToString v ;;
  ret (s ++ t).

(* ===================================================================== *)
(** * Promises and asynchronous functions                                 *)
(* ===================================================================== *)

(** The eventual state of a promise: it fulfils, it rejects, or it never
    settles. *)
Inductive Promise (A : Type) : Type :=
| Fulfilled (a : A)
| Rejected (r : Value)
| Pending.

Arguments Fulfilled {A} a.
Arguments Rejected {A} r.
Arguments Pending {A}.

(** The body of an [async] function: it completes, or it stays suspended
    at an [await] whose promise never settles. *)
Inductive Async (A : Type) : Type :=
| Done (c : Completion A)
| Suspended.

Arguments Done {A} c.
Arguments Suspended {A}.

#[global] Instance Monad_Async : Monad Async :=
  {| ret := fun _ a => Done (Normal a)
   ; bind := fun _ _ c k =>
       match c with
       | Done (Normal a) => k a
       | Done (Throw x) => Done (Throw x)
       | Suspended => Suspended
       end |}.

#[global] Instance Exc_Async : MonadExc Value Async :=
  {| raise := fun _ x => Done (Throw x)
   ; catch := fun _ body handler =>
       match body with
       | Done (Normal a) => Done (Normal a)
       | Done (Throw x) => handler x
       | Suspended => Suspended
       end |}.

(** [await p]: the fulfilment value, the rejection reason thrown at the
    [await], or no resumption at all. *)
Definition await {A : Type} (p : Promise A) : Async A :=
  match p with
  | Fulfilled a => Done (Normal a)
  | Rejected r => Done (Throw r)
  | Pending => Suspended
  end.

(** The promise an [async] function hands to its caller. *)
Definition async {A : Type} (body : Async A) : Promise A :=
  match body with
  | Done (Normal a) => Fulfilled a
  | Done (Throw x) => Rejected x
  | Suspended => Pending
  end.

(* ===================================================================== *)
(** * class Result                                                        *)
(* ===================================================================== *)

Module Result.

(** [{ [Result.Ok]: value } | { [Result.Err]: error }] *)
Inductive ResultConstructor : Type :=
| CtorOk (value : Value)
| CtorErr (error : Value).

(** The two private slots; a slot never assigned reads [undefined]. *)
Record t : Type := mk { value : Value; error : Value }.

Definition new (constructorArgs : ResultConstructor) : t :=
  match constructorArgs with
  | CtorOk v => {| value := v; error := VUndefined |}
  | CtorErr e => {| value := VUndefined; error := e |}
  end.

(** The handler object of [match], keyed by the two symbols. *)
Record MatchArgs : Type := { Ok : JSFunction; Err : JSFunction }.

(** An omitted argument is [undefined], which is also the default. *)
Definition ok (value : Value) : t := new (CtorOk value).

Definition err (error : Value) : t := new (CtorErr error).

Definition match_ (this : t) (matchArgs : MatchArgs) : Completion Value :=
  if negb (is_undefined (error this)) then
    Err matchArgs [error this]
  else
    Ok matchArgs [value this].

Definition or (this : t) (defaultValue : Value) : Value :=
  if negb (is_undefined (value this)) then value this
  else defaultValue.

Definition try (fn : JSFunction) (args : list Value) : Completion t :=
  catch
    (v <- fn args ;; ret (ok v))
    (fun error => ret (err error)).

Definition tryAsync (fn : list Value -> Completion (Promise Value))
    (args : list Value) : Promise t :=
  async
    (catch
       (p <- Done (fn args) ;; v <- await p ;; ret (ok v))
       (fun error => ret (err error))).

Definition map (this : t) (mapper : JSFunction) : Completion t :=
  if negb (is_undefined (error this)) then
    ret (err (error this))
  else
    try mapper [value this].

Definition unwrap (this : t) : Completion Value :=
  if is_undefined (value this) then
    message <- string_add
      "Attempted to unwrap an Err value Result. Error: " (error this) ;;
    raise (Error message)
  else
    ret (value this).

Definition expect (this : t) (message : string) : Completion Value :=
  if is_undefined (value this) then raise (Error message)
  else ret (value this).

Definition unwrapErr (this : t) : Completion Value :=
  if is_undefined (error this) then
    raise (Error "Attempted to unwrap error for an Ok value Result.")
  else
    ret (error this).

Definition expectErr (this : t) (message : string) : Completion Value :=
  if is_undefined (error this) then raise (Error message)
  else ret (error this).

Definition isOk (this : t) : bool := is_undefined (error this).

Definition isErr (this : t) : bool := negb (is_undefined (error this)).

End Result.

(* ===================================================================== *)
(** * class Option                                                        *)
(* ===================================================================== *)

Module Option.

(** [{ [Option.Some]: value } | { [Option.None]: null }] *)
Inductive OptionConstructor : Type :=
| CtorSome (value : Value)
| CtorNone.

Record t : Type := mk { value : Value }.

Definition new (constructorArgs : OptionConstructor) : t :=
  match constructorArgs with
  | CtorNone => {| value := VUndefined |}
  | CtorSome v => {| value := v |}
  end.

(** The handler object of [match], keyed by the two symbols; the [None]
    handler is called without arguments. *)
Record MatchArgs : Type := { Some : JSFunction; None : JSFunction }.

Definition none : t := new CtorNone.

Definition some (value : Value) : Completion t :=
  if is_undefined value then
    raise (Error "Cannot create a Some Option with an undefined value.")
  else if is_null value then
    raise (Error "Cannot create a Some Option with a null value.")
  else
    ret (new (CtorSome value)).

Definition from (value : Value) : Completion t :=
  if is_undefined value then ret none
  else if is_null value then ret none
  else some value.

Definition fromAsync (value : Promise Value) : Promise t :=
  async (unwrappedValue <- await value ;; Done (from unwrappedValue)).

Definition match_ (this : t) (matchArgs : MatchArgs) : Completion Value :=
  if is_undefined (value this) then None matchArgs []
  else Some matchArgs [value this].

Definition or (this : t) (defaultValue : Value) : Value :=
  if is_undefined (value this) then defaultValue
  else value this.

Definition map (this : t) (mapper : JSFunction) : Completion t :=
  if is_undefined (value this) then ret none
  else
    out <- mapper [value this] ;;
    from out.

Definition unwrap (this : t) : Completion Value :=
  if is_undefined (value this) then
    raise (Error "Attempted to unwrap a None value Option.")
  else
    ret (value this).

Definition expect (this : t) (message : string) : Completion Value :=
  if is_undefined (value this) then raise (Error message)
  else ret (value this).

Definition unwrapNone (this : t) : Completion Value :=
  if negb (is_undefined (value this)) then
    raise (Error "Attempted to unwrap a Some value Option.")
  else
    ret VUndefined.

Definition expectNone (this : t) (message : string) : Completion Value :=
  if negb (is_undefined (value this)) then raise (Error message)
  else ret VUndefined.

Definition isSome (this : t) : bool := negb (is_undefined (value this)).

Definition isNone (this : t) : bool := is_undefined (value this).

(** The Options a client can obtain: the class has a private constructor,
    so every instance comes from a static factory or from [map]. *)
Inductive reachable : t -> Prop :=
| reach_some v o : some v = Normal o -> reachable o
| reach_none : reachable none
| reach_from v o : from v = Normal o -> reachable o
| reach_fromAsync p o : fromAsync p = Fulfilled o -> reachable o
| reach_map o mapper o' :
    reachable o -> map o mapper = Normal o' -> reachable o'.

End Option.

(* ===================================================================== *)
(** * Properties the specification states                                 *)
(* ===================================================================== *)

(** The reading of "indistinguishable" the specification gives: every
    public operation has the same observable outcome on both Results. *)
Definition indistinguishable (r1 r2 : Result.t) : Prop :=
  (forall matchArgs,
      same_outcome (Result.match_ r1 matchArgs) (Result.match_ r2 matchArgs)) /\
  (forall defaultValue, Result.or r1 defaultValue = Result.or r2 defaultValue) /\
  (forall mapper, same_outcome (Result.map r1 mapper) (Result.map r2 mapper)) /\
  same_outcome (Result.unwrap r1) (Result.unwrap r2) /\
  (forall message,
      same_outcome (Result.expect r1 message) (Result.expect r2 message)) /\
  same_outcome (Result.unwrapErr r1) (Result.unwrapErr r2) /\
  (forall message,
      same_outcome (Result.expectErr r1 message) (Result.expectErr r2 message)) /\
  Result.isOk r1 = Result.isOk r2 /\
  Result.isErr r1 = Result.isErr r2.

(** C4 as stated, for one success value [v]. *)
Definition ok_unwraps_to (v : Value) : Prop :=
  Result.unwrap (Result.ok v) = Normal v /\
  Result.isOk (Result.ok v) = true /\
  Result.isErr (Result.ok v) = false.


(** The two readings of "an Err Result holding [e]" and "an Ok Result
    holding [v]": the instance the factory builds, or an instance on which
    the predicate of the class answers true. *)
Definition holds_err (r : Result.t) (e : Value) : Prop :=
  Result.isErr r = true /\ Result.error r = e.

Definition holds_ok (r : Result.t) (v : Value) : Prop :=
  Result.isOk r = true /\ Result.value r = v.

(** C7 as stated, read on the instances the factories build. *)
Definition map_claim_by_factory : Prop :=
  forall (mapper : JSFunction),
    (forall e, Result.map (Result.err e) mapper = Normal (Result.err e)) /\
    (forall v, Result.map (Result.ok v) mapper = Result.try mapper [v]).

(** C7 as stated, read on the instances the predicates recognise. *)
Definition map_claim_by_predicate : Prop :=
  forall (mapper : JSFunction) (r : Result.t),
    (forall e, holds_err r e ->
               exists r', Result.map r mapper = Normal r' /\ holds_err r' e) /\
    (forall v, holds_ok r v ->
               Result.map r mapper = Result.try mapper [v] /\
               (forall w, mapper [v] = Normal w ->
                          exists r', Result.map r mapper = Normal r' /\
                                     holds_ok r' w) /\
               (forall x, mapper [v] = Throw x ->
                          exists r', Result.map r mapper = Normal r' /\
                                     holds_err r' x)).

(** [(x) => x * 2], whose parameter is typed as a number.  On any other
    argument the product is [NaN], which the integer-valued numbers of
    [Value] do not have; the mapper is applied to numbers only and the
    remaining branch is a placeholder. *)
Definition times_two : JSFunction :=
  fun args =>
    match args with
    | VNum x :: _ => Normal (VNum (x * 2))
    | _ => Normal VUndefined
    end.

(* ===================================================================== *)
(** * Callbacks and reachable Results                                     *)
(* ===================================================================== *)

(** [(x) => x]; a parameter without an argument reads [undefined]. *)
Definition identity : JSFunction :=
  fun args => Normal (nth 0 args VUndefined).

(** [(x) => g(f(x))]. *)
Definition compose (g f : JSFunction) : JSFunction :=
  fun args =>
    out <- f [nth 0 args VUndefined] ;;
    g [out].

(** [(v) => v] and [() => undefined], the handlers that read an Option
    back as a nullable value. *)
Definition read_back : Option.MatchArgs :=
  {| Option.Some := identity; Option.None := fun _ => Normal VUndefined |}.

(** [v ?? d], the nullish coalescing of JavaScript. *)
Definition nullish (v d : Value) : Value :=
  if is_undefined v || is_null v then d else v.

(** The Results a client can obtain: the constructor of the class is
    private, so every instance comes from a static factory or from [map]. *)
Inductive result_reachable : Result.t -> Prop :=
| rr_ok v : result_reachable (Result.ok v)
| rr_err e : result_reachable (Result.err e)
| rr_try fn args r : Result.try fn args = Normal r -> result_reachable r
| rr_tryAsync fn args r :
    Result.tryAsync fn args = Fulfilled r -> result_reachable r
| rr_map r mapper r' :
    result_reachable r -> Result.map r mapper = Normal r' ->
    result_reachable r'.

(* ===================================================================== *)
(** * The absence sentinels                                               *)
(* ===================================================================== *)

(** Case analysis on a payload, closing the branches that compute. *)
Ltac by_payload v :=
  destruct v; simpl in *; try congruence; try reflexivity; auto.

Lemma is_undefined_true v : is_undefined v = true <-> v = VUndefined.
Proof. destruct v; simpl; split; congruence. Qed.

Lemma is_undefined_false v : is_undefined v = false <-> v <> VUndefined.
Proof. destruct v; simpl; split; congruence. Qed.

(* ===================================================================== *)
(** * Runs of the test suite                                              *)
(* ===================================================================== *)

Example result_spec_unwrap_err :
  Result.unwrap (Result.err (VStr "error message")) =
  Throw (Error "Attempted to unwrap an Err value Result. Error: error message").
Proof. reflexivity. Qed.

Example result_spec_try_add :
  Result.try
    (fun args =>
       match args with
       | [VNum a; VNum b] => Normal (VNum (a + b))
       | _ => Throw (TypeError "add")
       end)
    [VNum 1; VNum 2] = Normal (Result.ok (VNum 3)).
Proof. reflexivity. Qed.

Example result_spec_try_throw :
  Result.try (fun _ => Throw (Error "error")) [] =
  Normal (Result.err (Error "error")).
Proof. reflexivity. Qed.

Example result_unwrap_err_number :
  Result.unwrap (Result.err (VNum (-12))) =
  Throw (Error "Attempted to unwrap an Err value Result. Error: -12").
Proof. reflexivity. Qed.

Example result_unwrap_err_error_object :
  Result.unwrap (Result.err (Error "boom")) =
  Throw (Error "Attempted to unwrap an Err value Result. Error: Error: boom").
Proof. reflexivity. Qed.

Example option_spec_from_async_reject :
  Option.fromAsync (Rejected (VStr "error")) = Rejected (VStr "error").
Proof. reflexivity. Qed.

Example option_spec_from_async_null :
  Option.fromAsync (Fulfilled VNull) = Fulfilled Option.none.
Proof. reflexivity. Qed.

Example option_spec_match_none :
  Option.match_ Option.none
    {| Option.Some := fun args => Normal (nth 0 args VUndefined)
     ; Option.None := fun _ => Normal (VNum 0) |} = Normal (VNum 0).
Proof. reflexivity. Qed.

(* ===================================================================== *)
(** * Exceptions captured by the Result factories                         *)
(* ===================================================================== *)

Section Try.

Variable fn : JSFunction.
Variable asyncFn : list Value -> Completion (Promise Value).
Variable args : list Value.

Lemma try_eq :
  Result.try fn args =
  Normal match fn args with
         | Normal v => Result.ok v
         | Throw x => Result.err x
         end.
Proof. unfold Result.try. simpl. destruct (fn args); reflexivity. Qed.

Lemma tryAsync_eq :
  Result.tryAsync asyncFn args =
  match asyncFn args with
  | Normal (Fulfilled v) => Fulfilled (Result.ok v)
  | Normal (Rejected r) => Fulfilled (Result.err r)
  | Normal Pending => Pending
  | Throw x => Fulfilled (Result.err x)
  end.
Proof.
  unfold Result.tryAsync. simpl.
  destruct (asyncFn args) as [[v | r | ] | x]; reflexivity.
Qed.

(** C1.  [Result.try(fn, ...args)] always completes normally: with
    [Result.ok(v)] when [fn(...args)] returns [v], with [Result.err(x)] when
    it throws [x].  [Result.tryAsync] never hands back a rejected promise:
    a fulfilment with [v] gives [Result.ok(v)], a rejection with [r] gives
    [Result.err(r)], and so does an exception thrown by the call itself. *)
Theorem try_captures_exceptions :
  returns (Result.try fn args) /\
  (forall v, fn args = Normal v ->
             Result.try fn args = Normal (Result.ok v)) /\
  (forall x, fn args = Throw x ->
             Result.try fn args = Normal (Result.err x)) /\
  (forall r, Result.tryAsync asyncFn args <> Rejected r) /\
  (forall v, asyncFn args = Normal (Fulfilled v) ->
             Result.tryAsync asyncFn args = Fulfilled (Result.ok v)) /\
  (forall r, asyncFn args = Normal (Rejected r) ->
             Result.tryAsync asyncFn args = Fulfilled (Result.err r)) /\
  (forall x, asyncFn args = Throw x ->
             Result.tryAsync asyncFn args = Fulfilled (Result.err x)).
Proof.
  rewrite try_eq, tryAsync_eq.
  split; [eexists; reflexivity |].
  repeat split; intros.
  - rewrite H. reflexivity.
  - rewrite H. reflexivity.
  - destruct (asyncFn args) as [[? | ? | ] | ?]; discriminate.
  - rewrite H. reflexivity.
  - rewrite H. reflexivity.
  - rewrite H. reflexivity.
Qed.

End Try.

(** The test suite's [JSON.parse]-free cases: a returning callback, a
    throwing one, a fulfilled and a rejected asynchronous one. *)
Lemma try_captures_exceptions_witness :
  Result.try (fun _ => Normal (VNum 42)) [] = Normal (Result.ok (VNum 42)) /\
  Result.try (fun _ => Throw (Error "boom")) [] =
    Normal (Result.err (Error "boom")) /\
  Result.tryAsync (fun _ => Normal (Rejected (VStr "error"))) [] =
    Fulfilled (Result.err (VStr "error")).
Proof.
  split; [| split].
  - destruct (try_captures_exceptions
                (fun _ => Normal (VNum 42)) (fun _ => Normal Pending) [])
      as (_ & Hret & _).
    apply Hret. reflexivity.
  - destruct (try_captures_exceptions
                (fun _ => Throw (Error "boom")) (fun _ => Normal Pending) [])
      as (_ & _ & Hthrow & _).
    apply Hthrow. reflexivity.
  - destruct (try_captures_exceptions
                (fun _ => Throw VNull)
                (fun _ => Normal (Rejected (VStr "error"))) [])
      as (_ & _ & _ & _ & _ & Hrej & _).
    apply Hrej. reflexivity.
Defined.

(* ===================================================================== *)
(** * Result: the two slots and the operations that read them             *)
(* ===================================================================== *)

Lemma ok_slots v : Result.ok v = {| Result.value := v; Result.error := VUndefined |}.
Proof. reflexivity. Qed.

Lemma err_slots e : Result.err e = {| Result.value := VUndefined; Result.error := e |}.
Proof. reflexivity. Qed.

Lemma isErr_negb_isOk r : Result.isErr r = negb (Result.isOk r).
Proof. reflexivity. Qed.

Lemma unwrap_defined r :
  Result.value r <> VUndefined -> Result.unwrap r = Normal (Result.value r).
Proof.
  intros H. unfold Result.unwrap.
  apply is_undefined_false in H. rewrite H. reflexivity.
Qed.

Lemma unwrap_undefined r :
  Result.value r = VUndefined ->
  Result.unwrap r =
  if is_symbol (Result.error r) then
    Throw (TypeError "Cannot convert a Symbol value to a string")
  else
    Throw (Error ("Attempted to unwrap an Err value Result. Error: "
                  ++ stringify (Result.error r))).
Proof.
  intros H. unfold Result.unwrap, string_add, ToString. rewrite H. simpl.
  destruct (is_symbol (Result.error r)); reflexivity.
Qed.

Lemma unwrap_undefined_raises r :
  Result.value r = VUndefined -> raises (Result.unwrap r).
Proof.
  intros H. rewrite (unwrap_undefined r H).
  destruct (is_symbol (Result.error r)); eexists; reflexivity.
Qed.

Lemma unwrapErr_defined r :
  Result.error r <> VUndefined -> Result.unwrapErr r = Normal (Result.error r).
Proof.
  intros H. unfold Result.unwrapErr.
  apply is_undefined_false in H. rewrite H. reflexivity.
Qed.

(** C2, as stated, fails: [isOk] tells [Result.ok(undefined)] from
    [Result.err("error")], and so do [isErr], [match], [map], [unwrapErr]
    and [expectErr]. *)
Lemma ok_undefined_distinguished_from_err :
  ~ indistinguishable (Result.ok VUndefined) (Result.err (VStr "error")).
Proof.
  intros (_ & _ & _ & _ & _ & _ & _ & HisOk & _).
  discriminate HisOk.
Qed.

(** C2, amended.  [Result.ok(undefined)] is the very state of
    [Result.err(undefined)].  The operations that test the value slot --
    [or], [unwrap], [expect] -- have the same outcome on it as on
    [Result.err(e)] for every [e]: [or] returns the default, [unwrap]
    raises, [expect] raises its message.  The operations that test the error
    slot treat it as Ok: [isOk] is true, [isErr] is false, [match] calls the
    Ok handler on [undefined], [map] is [Result.try(mapper, undefined)],
    [unwrapErr] and [expectErr] raise. *)
Theorem ok_undefined_reads_as_err_by_value (e : Value) :
  Result.ok VUndefined = Result.err VUndefined /\
  (forall defaultValue,
      Result.or (Result.ok VUndefined) defaultValue = defaultValue /\
      Result.or (Result.err e) defaultValue = defaultValue) /\
  (same_outcome (Result.unwrap (Result.ok VUndefined))
                (Result.unwrap (Result.err e)) /\
   raises (Result.unwrap (Result.ok VUndefined)) /\
   raises (Result.unwrap (Result.err e))) /\
  (forall message,
      Result.expect (Result.ok VUndefined) message = Throw (Error message) /\
      Result.expect (Result.err e) message = Throw (Error message)) /\
  Result.isOk (Result.ok VUndefined) = true /\
  Result.isErr (Result.ok VUndefined) = false /\
  (forall matchArgs,
      Result.match_ (Result.ok VUndefined) matchArgs =
      Result.Ok matchArgs [VUndefined]) /\
  (forall mapper,
      Result.map (Result.ok VUndefined) mapper =
      Result.try mapper [VUndefined]) /\
  Result.unwrapErr (Result.ok VUndefined) =
    Throw (Error "Attempted to unwrap error for an Ok value Result.") /\
  (forall message,
      Result.expectErr (Result.ok VUndefined) message = Throw (Error message)).
Proof.
  assert (Hraise : raises (Result.unwrap (Result.err e)))
    by (apply unwrap_undefined_raises; reflexivity).
  repeat split; try reflexivity; try assumption.
  - destruct Hraise as [x Hx]. rewrite Hx. exact I.
  - eexists; reflexivity.
Qed.

(** C4, as stated, fails at [undefined]: [unwrap] tests the value slot and
    raises. *)
Lemma ok_undefined_unwrap_raises :
  ~ ok_unwraps_to VUndefined.
Proof. intros [Hunwrap _]. discriminate Hunwrap. Qed.

(** C4, amended.  For every value [v], [Result.ok(v).isOk()] is true and
    [isErr()] is false; for every [v] other than [undefined] -- the falsy
    [0], [""], [false] and [null] included -- [Result.ok(v).unwrap()]
    returns [v]. *)
Theorem ok_unwrap_returns_value (v : Value) :
  (v <> VUndefined -> Result.unwrap (Result.ok v) = Normal v) /\
  Result.isOk (Result.ok v) = true /\
  Result.isErr (Result.ok v) = false.
Proof.
  repeat split.
  intros Hv. exact (unwrap_defined (Result.ok v) Hv).
Qed.

Lemma ok_unwrap_returns_value_witness :
  ok_unwraps_to (VNum 0) /\ ok_unwraps_to (VStr "") /\
  ok_unwraps_to (VBool false) /\ ok_unwraps_to VNull.
Proof.
  repeat apply conj;
    try (apply ok_unwrap_returns_value; discriminate);
    reflexivity.
Defined.




(** C9.  [Result.err(undefined)] -- the error factory with its argument
    omitted -- answers [false] to [isErr] and [true] to [isOk], and both
    [unwrap] and [unwrapErr] raise on it. *)
Theorem err_undefined_is_neither :
  Result.isErr (Result.err VUndefined) = false /\
  Result.isOk (Result.err VUndefined) = true /\
  Result.unwrap (Result.err VUndefined) =
    Throw (Error "Attempted to unwrap an Err value Result. Error: undefined") /\
  Result.unwrapErr (Result.err VUndefined) =
    Throw (Error "Attempted to unwrap error for an Ok value Result.") /\
  raises (Result.unwrap (Result.err VUndefined)) /\
  raises (Result.unwrapErr (Result.err VUndefined)).
Proof.
  repeat split; try reflexivity; eexists; reflexivity.
Qed.

(* ===================================================================== *)
(** * Result.map                                                          *)
(* ===================================================================== *)

Section ResultMap.

Variable mapper : JSFunction.

Lemma map_error_slot_occupied r :
  Result.isErr r = true ->
  Result.map r mapper = Normal (Result.err (Result.error r)).
Proof.
  unfold Result.isErr, Result.map. intros H. rewrite H. reflexivity.
Qed.

Lemma map_error_slot_empty r :
  Result.isOk r = true ->
  Result.map r mapper = Result.try mapper [Result.value r].
Proof.
  unfold Result.isOk, Result.map. intros H. rewrite H. reflexivity.
Qed.

(** C7, as stated, fails under both readings.  Read on the factories,
    [Result.err(undefined).map(mapper)] runs the mapper instead of handing
    the Err back; read on the predicates, a mapper that throws [undefined]
    yields [Result.err(undefined)], on which [isErr()] is false. *)
Lemma map_at_undefined_breaks_claim :
  ~ map_claim_by_factory /\ ~ map_claim_by_predicate.
Proof.
  split.
  - intros Hclaim.
    destruct (Hclaim (fun _ => Normal (VNum 1))) as [Herr _].
    specialize (Herr VUndefined). discriminate Herr.
  - intros Hclaim.
    destruct (Hclaim (fun _ => Throw VUndefined) (Result.ok (VNum 1)))
      as [_ Hok].
    destruct (Hok (VNum 1) (conj eq_refl eq_refl)) as (_ & _ & Hthrow).
    destruct (Hthrow VUndefined eq_refl) as (r' & Hmap & HisErr & _).
    injection Hmap as <-. discriminate HisErr.
Qed.

(** C7, amended.  On a Result for which [isErr()] is true -- error slot
    occupied: every [Result.err(e)] with [e] other than [undefined] --
    [map] returns [Result.err] of the same error, itself an Err Result.
    On a Result for which [isOk()] is true holding [v] -- every
    [Result.ok(v)], and [Result.err(undefined)] with [v] [undefined] -- it
    is [Result.try(mapper, v)]: [Result.ok(w)], on which [isOk()] is true,
    when the mapper returns [w], and [Result.err(x)] when it throws [x], an
    Err Result whose [unwrapErr()] is [x] when [x] is not [undefined].  So
    [Result.ok(42).map(x => x * 2).unwrap()] is [84], and
    [Result.err("e").map(x => x * 2)] is an Err Result whose [unwrapErr()]
    is ["e"]. *)
Theorem map_spec (r : Result.t) :
  (Result.isErr r = true ->
   Result.map r mapper = Normal (Result.err (Result.error r)) /\
   Result.isErr (Result.err (Result.error r)) = true /\
   Result.unwrapErr (Result.err (Result.error r)) = Normal (Result.error r)) /\
  (Result.isOk r = true ->
   Result.map r mapper = Result.try mapper [Result.value r] /\
   (forall w, mapper [Result.value r] = Normal w ->
              Result.map r mapper = Normal (Result.ok w) /\
              Result.isOk (Result.ok w) = true /\
              (w <> VUndefined -> Result.unwrap (Result.ok w) = Normal w)) /\
   (forall x, mapper [Result.value r] = Throw x ->
              Result.map r mapper = Normal (Result.err x) /\
              (x <> VUndefined ->
               Result.isErr (Result.err x) = true /\
               Result.unwrapErr (Result.err x) = Normal x))) /\
  (forall e, e <> VUndefined ->
             Result.map (Result.err e) mapper = Normal (Result.err e)) /\
  (forall v, Result.map (Result.ok v) mapper = Result.try mapper [v]) /\
  Result.map (Result.err VUndefined) mapper = Result.try mapper [VUndefined] /\
  (mapper [VNum 42] = Normal (VNum 84) ->
   (r' <- Result.map (Result.ok (VNum 42)) mapper ;; Result.unwrap r') =
   Normal (VNum 84)) /\
  Result.map (Result.err (VStr "e")) mapper = Normal (Result.err (VStr "e")) /\
  Result.isErr (Result.err (VStr "e")) = true /\
  Result.unwrapErr (Result.err (VStr "e")) = Normal (VStr "e").
Proof.
  split; [| split; [| split; [| split; [| split; [| split]]]]].
  - intros HisErr. split; [exact (map_error_slot_occupied r HisErr) |].
    split; [exact HisErr |].
    apply (unwrapErr_defined (Result.err (Result.error r))). simpl.
    apply is_undefined_false.
    unfold Result.isErr in HisErr.
    destruct (is_undefined (Result.error r)); [discriminate | reflexivity].
  - intros HisOk. rewrite (map_error_slot_empty r HisOk), try_eq.
    split; [reflexivity |].
    split.
    + intros w Hm. rewrite Hm. split; [reflexivity |].
      split; [reflexivity |].
      intros Hw. exact (unwrap_defined (Result.ok w) Hw).
    + intros x Hm. rewrite Hm. split; [reflexivity |].
      intros Hx. split.
      * apply is_undefined_false in Hx.
        unfold Result.isErr. simpl. rewrite Hx. reflexivity.
      * exact (unwrapErr_defined (Result.err x) Hx).
  - intros e He. apply (map_error_slot_occupied (Result.err e)).
    apply is_undefined_false in He.
    unfold Result.isErr. simpl. rewrite He. reflexivity.
  - intros v. apply (map_error_slot_empty (Result.ok v)). reflexivity.
  - apply (map_error_slot_empty (Result.err VUndefined)). reflexivity.
  - intros H42. rewrite map_error_slot_empty by reflexivity.
    rewrite try_eq. simpl. rewrite H42. reflexivity.
  - repeat split.
Qed.

End ResultMap.

Lemma map_spec_witness :
  (r' <- Result.map (Result.ok (VNum 42)) times_two ;; Result.unwrap r') =
    Normal (VNum 84) /\
  Result.map (Result.err (VStr "e")) times_two =
    Normal (Result.err (VStr "e")) /\
  (Result.map (Result.ok (VNum 42)) (fun _ => Throw (Error "boom")) =
     Normal (Result.err (Error "boom")) /\
   Result.isErr (Result.err (Error "boom")) = true /\
   Result.unwrapErr (Result.err (Error "boom")) = Normal (Error "boom")).
Proof.
  split; [| split].
  - destruct (map_spec times_two (Result.ok (VNum 42)))
      as (_ & _ & _ & _ & _ & H42 & _).
    apply H42. reflexivity.
  - destruct (map_spec times_two (Result.err (VStr "e")))
      as (HErr & _).
    apply HErr. reflexivity.
  - destruct (map_spec (fun _ => Throw (Error "boom")) (Result.ok (VNum 42)))
      as (_ & HOk & _).
    destruct (HOk eq_refl) as (_ & _ & Hthrow).
    destruct (Hthrow (Error "boom") eq_refl) as (Hmap & Hheld).
    destruct Hheld as (HisErr & HunwrapErr); [discriminate |].
    split; [exact Hmap | split; [exact HisErr | exact HunwrapErr]].
Defined.

(* ===================================================================== *)
(** * Option: construction                                                *)
(* ===================================================================== *)

Lemma some_defined v :
  v <> VUndefined -> v <> VNull ->
  Option.some v = Normal {| Option.value := v |}.
Proof. intros Hu Hn. by_payload v. Qed.

Lemma some_inv v o :
  Option.some v = Normal o ->
  v <> VUndefined /\ v <> VNull /\ o = {| Option.value := v |}.
Proof. by_payload v; intros [= <-]; repeat split; discriminate. Qed.

(** [from] never raises: an absence sentinel becomes [none], anything else
    passes the validation of [some]. *)
Lemma from_eq v :
  Option.from v =
  Normal (if is_undefined v || is_null v then Option.none
          else {| Option.value := v |}).
Proof. by_payload v. Qed.

Lemma from_inv v o :
  Option.from v = Normal o ->
  Option.value o <> VNull /\
  (Option.value o = VUndefined \/ Option.value o = v).
Proof.
  rewrite from_eq. intros [= <-].
  by_payload v; split; auto; discriminate.
Qed.

(** C6.  [Option.some(undefined)] and [Option.some(null)] raise at
    construction, each with its own message; for every other value [v],
    [Option.some(v)] is a present Option whose [unwrap()] returns [v]. *)
Theorem some_validates (v : Value) :
  Option.some VUndefined =
    Throw (Error "Cannot create a Some Option with an undefined value.") /\
  Option.some VNull =
    Throw (Error "Cannot create a Some Option with a null value.") /\
  "Cannot create a Some Option with an undefined value." <>
    "Cannot create a Some Option with a null value." /\
  (v <> VUndefined -> v <> VNull ->
   exists o, Option.some v = Normal o /\
             Option.isSome o = true /\
             Option.unwrap o = Normal v).
Proof.
  split; [reflexivity |]. split; [reflexivity |]. split; [discriminate |].
  intros Hu Hn. exists {| Option.value := v |}.
  split; [exact (some_defined v Hu Hn) |].
  by_payload v.
Qed.

Lemma some_validates_witness :
  exists o, Option.some (VNum 42) = Normal o /\
            Option.isSome o = true /\
            Option.unwrap o = Normal (VNum 42).
Proof.
  destruct (some_validates (VNum 42)) as (_ & _ & _ & Hsome).
  apply Hsome; discriminate.
Defined.

(** C3.  [Option.fromAsync] hands a rejection back unchanged, as a rejected
    promise and not as a settled Option; on a fulfilment with [v] it yields
    the Option that [Option.from(v)] returns. *)
Theorem fromAsync_propagates_rejection :
  (forall r, Option.fromAsync (Rejected r) = Rejected r) /\
  (forall v, exists o, Option.from v = Normal o /\
                       Option.fromAsync (Fulfilled v) = Fulfilled o).
Proof.
  split; [reflexivity |].
  intros v. unfold Option.fromAsync. simpl. rewrite from_eq.
  eexists. split; reflexivity.
Qed.

(* ===================================================================== *)
(** * Option.map                                                          *)
(* ===================================================================== *)

Section OptionMap.

Variable mapper : JSFunction.

Lemma map_absent o :
  Option.isNone o = true -> Option.map o mapper = Normal Option.none.
Proof. unfold Option.isNone, Option.map. intros ->. reflexivity. Qed.

Lemma map_present o :
  Option.isSome o = true ->
  Option.map o mapper = (out <- mapper [Option.value o] ;; Option.from out).
Proof.
  unfold Option.isSome, Option.map.
  destruct (is_undefined (Option.value o)); [discriminate | reflexivity].
Qed.

Lemma map_inv o o' :
  Option.map o mapper = Normal o' ->
  o' = Option.none \/ exists out, Option.from out = Normal o'.
Proof.
  unfold Option.map.
  destruct (is_undefined (Option.value o)); simpl.
  - intros [= <-]. left. reflexivity.
  - destruct (mapper [Option.value o]) as [out | x]; [| discriminate].
    intros H. right. exists out. exact H.
Qed.

(** C8.  On an absent Option [map] returns [Option.none()] whatever the
    mapper is -- also for a mapper that throws on every call, so the mapper
    is not invoked; on a present Option holding [v] it is
    [Option.from(mapper(v))], so a mapper returning [undefined] or [null]
    gives an absent Option, and no mapper makes [map] return a present
    Option holding an absence sentinel. *)
Theorem option_map_spec (o : Option.t) :
  (Option.isNone o = true ->
   Option.map o mapper = Normal Option.none /\
   forall x, Option.map o (fun _ => Throw x) = Normal Option.none) /\
  (Option.isSome o = true ->
   Option.map o mapper = (out <- mapper [Option.value o] ;; Option.from out) /\
   (forall out, mapper [Option.value o] = Normal out ->
                Option.map o mapper = Option.from out) /\
   (forall out, mapper [Option.value o] = Normal out ->
                out = VUndefined \/ out = VNull ->
                Option.map o mapper = Normal Option.none)) /\
  (forall o', Option.map o mapper = Normal o' ->
              Option.value o' <> VNull /\
              (Option.isSome o' = true -> Option.value o' <> VUndefined)).
Proof.
  split; [| split].
  - intros Hnone. split; [exact (map_absent o Hnone) |].
    intros x. unfold Option.isNone in Hnone. unfold Option.map.
    rewrite Hnone. reflexivity.
  - intros Hsome. rewrite (map_present o Hsome).
    split; [reflexivity |].
    split; intros out Hout; rewrite Hout; simpl; [reflexivity |].
    intros [-> | ->]; reflexivity.
  - intros o' Hmap. split.
    + destruct (map_inv o o' Hmap) as [-> | [out Hfrom]]; [discriminate |].
      exact (proj1 (from_inv out o' Hfrom)).
    + unfold Option.isSome. intros H.
      apply is_undefined_false.
      destruct (is_undefined (Option.value o')); [discriminate | reflexivity].
Qed.

End OptionMap.

Lemma option_map_spec_witness :
  Option.map Option.none (fun _ => Throw (Error "boom")) = Normal Option.none /\
  Option.map {| Option.value := VNum 42 |} (fun _ => Normal VNull) =
    Normal Option.none /\
  Option.map {| Option.value := VNum 42 |} times_two =
    Normal {| Option.value := VNum 84 |}.
Proof.
  split; [| split].
  - destruct (option_map_spec (fun _ => Throw (Error "boom")) Option.none)
      as (Habsent & _).
    apply (Habsent eq_refl).
  - destruct (option_map_spec (fun _ => Normal VNull)
                {| Option.value := VNum 42 |}) as (_ & Hpresent & _).
    destruct (Hpresent eq_refl) as (_ & _ & Hcollapse).
    apply (Hcollapse VNull); [reflexivity | right; reflexivity].
  - destruct (option_map_spec times_two {| Option.value := VNum 42 |})
      as (_ & Hpresent & _).
    destruct (Hpresent eq_refl) as (_ & Hfrom & _).
    apply (Hfrom (VNum 84)). reflexivity.
Defined.

(* ===================================================================== *)
(** * Option: the invariant of reachable instances                        *)
(* ===================================================================== *)

Lemma fromAsync_inv p o :
  Option.fromAsync p = Fulfilled o -> exists v, Option.from v = Normal o.
Proof.
  unfold Option.fromAsync.
  destruct p as [v | r | ]; simpl; try discriminate.
  rewrite from_eq. intros [= <-]. exists v. apply from_eq.
Qed.

Lemma reachable_never_null o :
  Option.reachable o -> Option.value o <> VNull.
Proof.
  induction 1 as [v o Hsome | | v o Hfrom | p o Hasync | o mapper o' _ _ Hmap].
  - destruct (some_inv v o Hsome) as (_ & Hn & ->). exact Hn.
  - discriminate.
  - exact (proj1 (from_inv v o Hfrom)).
  - destruct (fromAsync_inv p o Hasync) as [v Hfrom].
    exact (proj1 (from_inv v o Hfrom)).
  - destruct (map_inv mapper o o' Hmap) as [-> | [out Hfrom]]; [discriminate |].
    exact (proj1 (from_inv out o' Hfrom)).
Qed.

Lemma isSome_iff_unwrap o :
  Option.isSome o = true <-> returns (Option.unwrap o).
Proof.
  unfold Option.isSome, Option.unwrap, returns.
  destruct (is_undefined (Option.value o)); simpl; split.
  - discriminate.
  - intros [a Ha]. discriminate Ha.
  - intros _. eexists. reflexivity.
  - reflexivity.
Qed.

Lemma isNone_iff_unwrapNone o :
  Option.isNone o = true <-> returns (Option.unwrapNone o).
Proof.
  unfold Option.isNone, Option.unwrapNone, returns.
  destruct (is_undefined (Option.value o)); simpl; split.
  - intros _. eexists. reflexivity.
  - reflexivity.
  - discriminate.
  - intros [a Ha]. discriminate Ha.
Qed.

(** C10.  [null] is rejected by [some] and collapsed to absence by [from],
    and an Option obtained from [some], [none], [from], [fromAsync] and
    [map] never stores [null]; on it [isSome()] is true exactly when
    [unwrap()] returns and [isNone()] is true exactly when [unwrapNone()]
    returns. *)
Theorem reachable_option_consistent (o : Option.t) :
  Option.reachable o ->
  raises (Option.some VNull) /\
  Option.from VNull = Normal Option.none /\
  Option.value o <> VNull /\
  (Option.isSome o = true <-> returns (Option.unwrap o)) /\
  (Option.isNone o = true <-> returns (Option.unwrapNone o)).
Proof.
  intros Hreach.
  split; [eexists; reflexivity |].
  split; [reflexivity |].
  split; [exact (reachable_never_null o Hreach) |].
  split; [apply isSome_iff_unwrap | apply isNone_iff_unwrapNone].
Qed.

Lemma reachable_option_consistent_witness :
  Option.reachable {| Option.value := VNum 84 |} /\
  Option.value {| Option.value := VNum 84 |} <> VNull /\
  (Option.isSome {| Option.value := VNum 84 |} = true <->
   returns (Option.unwrap {| Option.value := VNum 84 |})).
Proof.
  assert (Hreach : Option.reachable {| Option.value := VNum 84 |}).
  { apply (Option.reach_map {| Option.value := VNum 42 |} times_two).
    - apply (Option.reach_some (VNum 42)). reflexivity.
    - reflexivity. }
  split; [exact Hreach |].
  destruct (reachable_option_consistent _ Hreach) as (_ & _ & Hnull & Hsome & _).
  split; [exact Hnull | exact Hsome].
Defined.

(* ===================================================================== *)
(** * Result: the invariant of reachable instances                        *)
(* ===================================================================== *)

Lemma isErr_error_defined r :
  Result.isErr r = true <-> Result.error r <> VUndefined.
Proof.
  unfold Result.isErr. rewrite <- is_undefined_false.
  destruct (is_undefined (Result.error r)); simpl; split; congruence.
Qed.

Lemma result_map_inv mapper r r' :
  Result.map r mapper = Normal r' ->
  r' = Result.err (Result.error r) \/
  (exists v, r' = Result.ok v) \/ (exists x, r' = Result.err x).
Proof.
  unfold Result.map.
  destruct (negb (is_undefined (Result.error r))); simpl.
  - intros [= <-]. left. reflexivity.
  - rewrite try_eq. intros [= <-]. right.
    destruct (mapper [Result.value r]) as [v | x]; [left | right]; eexists;
      reflexivity.
Qed.

(** X1.  A Result obtained from [ok], [err], [try], [tryAsync] and [map]
    never has both slots occupied: its value slot or its error slot is
    [undefined]. *)
Theorem result_slots_never_both (r : Result.t) :
  result_reachable r ->
  Result.value r = VUndefined \/ Result.error r = VUndefined.
Proof.
  induction 1 as [v | e | fn args r Htry | fn args r Hasync
                 | r mapper r' _ _ Hmap].
  - right. reflexivity.
  - left. reflexivity.
  - rewrite try_eq in Htry. injection Htry as <-.
    destruct (fn args); [right | left]; reflexivity.
  - rewrite tryAsync_eq in Hasync.
    destruct (fn args) as [[v | x | ] | x]; try discriminate;
      injection Hasync as <-; [right | left | left]; reflexivity.
  - destruct (result_map_inv mapper r r' Hmap)
      as [-> | [[v ->] | [x ->]]]; [left | right | left]; reflexivity.
Qed.

Lemma result_slots_never_both_witness :
  Result.value (Result.err (Error "boom")) = VUndefined \/
  Result.error (Result.err (Error "boom")) = VUndefined.
Proof.
  apply result_slots_never_both.
  apply (rr_map (Result.ok (VNum 1)) (fun _ => Throw (Error "boom"))).
  - apply rr_ok.
  - reflexivity.
Defined.

Lemma err_value_undefined r :
  result_reachable r -> Result.isErr r = true -> Result.value r = VUndefined.
Proof.
  intros Hreach HisErr. apply isErr_error_defined in HisErr.
  induction Hreach as [v | e | fn args r Htry | fn args r Hasync
                      | r mapper r' _ _ Hmap].
  - exfalso. apply HisErr. reflexivity.
  - reflexivity.
  - rewrite try_eq in Htry. injection Htry as <-.
    destruct (fn args); [exfalso; apply HisErr |]; reflexivity.
  - rewrite tryAsync_eq in Hasync.
    destruct (fn args) as [[v | x | ] | x]; try discriminate;
      injection Hasync as <-; [exfalso; apply HisErr | |]; reflexivity.
  - destruct (result_map_inv mapper r r' Hmap)
      as [-> | [[v ->] | [x ->]]]; [| exfalso; apply HisErr |]; reflexivity.
Qed.

(** X2.  A reachable Result on which [isErr()] is true never yields a
    value: [unwrap] raises, [expect] raises its message, [or] returns the
    default; and [unwrapErr] returns the error. *)
Theorem err_never_yields_value (r : Result.t) :
  result_reachable r ->
  Result.isErr r = true ->
  raises (Result.unwrap r) /\
  (forall message, Result.expect r message = Throw (Error message)) /\
  (forall defaultValue, Result.or r defaultValue = defaultValue) /\
  Result.unwrapErr r = Normal (Result.error r).
Proof.
  intros Hreach HisErr.
  pose proof (err_value_undefined r Hreach HisErr) as Hvalue.
  split; [exact (unwrap_undefined_raises r Hvalue) |].
  split; [| split].
  - intros message. unfold Result.expect. rewrite Hvalue. reflexivity.
  - intros defaultValue. unfold Result.or. rewrite Hvalue. reflexivity.
  - apply unwrapErr_defined. apply isErr_error_defined. exact HisErr.
Qed.

Lemma err_never_yields_value_witness :
  raises (Result.unwrap (Result.err (VStr "error"))) /\
  (forall message,
      Result.expect (Result.err (VStr "error")) message =
      Throw (Error message)) /\
  (forall defaultValue,
      Result.or (Result.err (VStr "error")) defaultValue = defaultValue) /\
  Result.unwrapErr (Result.err (VStr "error")) = Normal (VStr "error").
Proof.
  apply (err_never_yields_value (Result.err (VStr "error"))).
  - apply rr_err.
  - reflexivity.
Defined.

(* ===================================================================== *)
(** * Result: how the readers relate                                      *)
(* ===================================================================== *)

(** X3.  [or] is [unwrap] with the failure replaced by the default: it
    returns what [unwrap] returns, and the default where [unwrap] raises.
    A falsy value that is not [undefined] is never replaced. *)
Theorem or_follows_unwrap (r : Result.t) (defaultValue : Value) :
  Result.or r defaultValue =
    match Result.unwrap r with
    | Normal v => v
    | Throw _ => defaultValue
    end /\
  (forall v, v <> VUndefined -> Result.or (Result.ok v) defaultValue = v).
Proof.
  split.
  - unfold Result.or.
    destruct (is_undefined (Result.value r)) eqn:Hvalue; simpl.
    + apply is_undefined_true in Hvalue.
      destruct (unwrap_undefined_raises r Hvalue) as [x ->]. reflexivity.
    + apply is_undefined_false in Hvalue.
      rewrite (unwrap_defined r Hvalue). reflexivity.
  - intros v Hv. unfold Result.or. simpl.
    apply is_undefined_false in Hv. rewrite Hv. reflexivity.
Qed.

Lemma or_follows_unwrap_witness :
  Result.or (Result.ok (VNum 0)) (VNum 7) = VNum 0 /\
  Result.or (Result.ok VNull) (VNum 7) = VNull.
Proof.
  split.
  - apply (or_follows_unwrap (Result.ok (VNum 0)) (VNum 7)). discriminate.
  - apply (or_follows_unwrap (Result.ok VNull) (VNum 7)). discriminate.
Defined.

(** X4.  [expect] returns exactly what [unwrap] returns and raises exactly
    where [unwrap] raises, with an [Error] carrying the caller's message
    alone; [expectErr] relates to [unwrapErr] in the same way. *)
Theorem expect_follows_unwrap (r : Result.t) (message : string) :
  Result.expect r message =
    match Result.unwrap r with
    | Normal v => Normal v
    | Throw _ => Throw (Error message)
    end /\
  Result.expectErr r message =
    match Result.unwrapErr r with
    | Normal e => Normal e
    | Throw _ => Throw (Error message)
    end.
Proof.
  split.
  - unfold Result.expect.
    destruct (is_undefined (Result.value r)) eqn:Hvalue.
    + apply is_undefined_true in Hvalue.
      destruct (unwrap_undefined_raises r Hvalue) as [x ->]. reflexivity.
    + apply is_undefined_false in Hvalue.
      rewrite (unwrap_defined r Hvalue). reflexivity.
  - unfold Result.expectErr, Result.unwrapErr.
    destruct (is_undefined (Result.error r)); reflexivity.
Qed.

(** X5.  [match] after [try] hands the value the function returned to the
    Ok handler and the exception it threw to the Err handler -- except a
    thrown [undefined], which goes to the Ok handler. *)
Theorem match_after_try (fn : JSFunction) (args : list Value)
    (matchArgs : Result.MatchArgs) :
  (r <- Result.try fn args ;; Result.match_ r matchArgs) =
  match fn args with
  | Normal v => Result.Ok matchArgs [v]
  | Throw x =>
      if is_undefined x then Result.Ok matchArgs [VUndefined]
      else Result.Err matchArgs [x]
  end.
Proof.
  rewrite try_eq. simpl.
  destruct (fn args) as [v | x]; unfold Result.match_; simpl.
  - reflexivity.
  - destruct (is_undefined x); reflexivity.
Qed.

(** X6.  [Result.try(fn, ...args).or(d)] is the value [fn] returned when it
    is not [undefined], and [d] when [fn] returned [undefined] or threw. *)
Theorem or_after_try (fn : JSFunction) (args : list Value) (d : Value) :
  (r <- Result.try fn args ;; ret (Result.or r d)) =
  Normal match fn args with
         | Normal v => if is_undefined v then d else v
         | Throw _ => d
         end.
Proof.
  rewrite try_eq. simpl.
  destruct (fn args) as [v | x]; unfold Result.or; simpl.
  - destruct (is_undefined v); reflexivity.
  - reflexivity.
Qed.

(* ===================================================================== *)
(** * Result.map: laws                                                    *)
(* ===================================================================== *)

(** X7.  [Result.map] never raises, whatever the Result and the mapper. *)
Theorem result_map_never_raises (r : Result.t) (mapper : JSFunction) :
  returns (Result.map r mapper).
Proof.
  unfold Result.map.
  destruct (negb (is_undefined (Result.error r))); simpl.
  - eexists. reflexivity.
  - rewrite try_eq. eexists. reflexivity.
Qed.

(** X8.  Two successive [map]s are one [map] with the composed mapper,
    provided the first mapper does not throw [undefined] on the held
    value. *)
Theorem result_map_fusion (r : Result.t) (f g : JSFunction) :
  f [Result.value r] <> Throw VUndefined ->
  (r' <- Result.map r f ;; Result.map r' g) = Result.map r (compose g f).
Proof.
  intros Hf. unfold Result.map at 1 3.
  destruct (negb (is_undefined (Result.error r))) eqn:HisErr; simpl.
  - apply (map_error_slot_occupied g (Result.err (Result.error r))).
    exact HisErr.
  - rewrite !try_eq. unfold compose. simpl.
    destruct (f [Result.value r]) as [w | x]; simpl.
    + rewrite (map_error_slot_empty g (Result.ok w)) by reflexivity.
      rewrite try_eq. reflexivity.
    + assert (Hx : x <> VUndefined) by congruence.
      apply (map_error_slot_occupied g (Result.err x)).
      apply isErr_error_defined. exact Hx.
Qed.

Lemma result_map_fusion_witness :
  (r' <- Result.map (Result.ok (VNum 21)) times_two ;;
   Result.map r' times_two) =
  Result.map (Result.ok (VNum 21)) (compose times_two times_two).
Proof.
  apply (result_map_fusion (Result.ok (VNum 21)) times_two times_two).
  discriminate.
Defined.

(** X9.  A mapper that throws [undefined] on an Ok Result loses its
    failure: [map] returns [Result.err(undefined)], on which [isOk()] is
    true, and the next [map] calls its mapper on [undefined]. *)
Theorem thrown_undefined_is_lost (r : Result.t) (f g : JSFunction) :
  Result.isOk r = true ->
  f [Result.value r] = Throw VUndefined ->
  Result.map r f = Normal (Result.err VUndefined) /\
  Result.isOk (Result.err VUndefined) = true /\
  (r' <- Result.map r f ;; Result.map r' g) = Result.try g [VUndefined].
Proof.
  intros HisOk Hf.
  assert (Hmap : Result.map r f = Normal (Result.err VUndefined)).
  { rewrite (map_error_slot_empty f r HisOk), try_eq, Hf. reflexivity. }
  split; [exact Hmap |]. split; [reflexivity |].
  rewrite Hmap. reflexivity.
Qed.

Lemma thrown_undefined_is_lost_witness :
  (r' <- Result.map (Result.ok (VNum 1)) (fun _ => Throw VUndefined) ;;
   Result.map r' (fun _ => Normal (VStr "ran"))) =
  Normal (Result.ok (VStr "ran")).
Proof.
  destruct (thrown_undefined_is_lost (Result.ok (VNum 1))
              (fun _ => Throw VUndefined) (fun _ => Normal (VStr "ran")))
    as (_ & _ & Hnext); [reflexivity | reflexivity |].
  rewrite Hnext. reflexivity.
Defined.

(** X10.  [map] with [(x) => x] gives back a reachable Result unchanged. *)
Theorem result_map_identity (r : Result.t) :
  result_reachable r -> Result.map r identity = Normal r.
Proof.
  intros Hreach. unfold Result.map.
  destruct (negb (is_undefined (Result.error r))) eqn:HisErr; simpl.
  - pose proof (err_value_undefined r Hreach HisErr) as Hvalue.
    destruct r as [value error]. simpl in *. subst value. reflexivity.
  - destruct r as [value error]. simpl in *.
    apply negb_false_iff, is_undefined_true in HisErr. subst error.
    reflexivity.
Qed.

Lemma result_map_identity_witness :
  Result.map (Result.err (VStr "e")) identity = Normal (Result.err (VStr "e")) /\
  Result.map (Result.ok VUndefined) identity = Normal (Result.ok VUndefined).
Proof.
  split; apply result_map_identity; [apply rr_err | apply rr_ok].
Defined.

(* ===================================================================== *)
(** * Result.tryAsync: settlement                                         *)
(* ===================================================================== *)

(** X11.  The promise of [Result.tryAsync] stays pending exactly when the
    call returned a promise that never settles; in every other case it
    fulfils. *)
Theorem tryAsync_settles (fn : list Value -> Completion (Promise Value))
    (args : list Value) :
  (Result.tryAsync fn args = Pending <-> fn args = Normal Pending) /\
  (fn args <> Normal Pending ->
   exists r, Result.tryAsync fn args = Fulfilled r).
Proof.
  rewrite tryAsync_eq.
  destruct (fn args) as [[v | x | ] | x]; split; try split;
    try discriminate; try reflexivity; try congruence;
    intros _; eexists; reflexivity.
Qed.

Lemma tryAsync_settles_witness :
  exists r,
    Result.tryAsync (fun _ => Normal (Rejected (VStr "error"))) [] =
    Fulfilled r.
Proof.
  apply (tryAsync_settles (fun _ => Normal (Rejected (VStr "error"))) []).
  discriminate.
Defined.

(* ===================================================================== *)
(** * Option: nullable values in and out                                  *)
(* ===================================================================== *)

Lemma reachable_from_value o :
  Option.reachable o -> Option.from (Option.value o) = Normal o.
Proof.
  intros Hreach. pose proof (reachable_never_null o Hreach) as Hnull.
  destruct o as [v]. simpl in *. rewrite from_eq.
  by_payload v.
Qed.

(** X13.  [Option.from] never raises, gives the absent Option exactly on
    [undefined] and [null], and agrees with [Option.some] wherever [some]
    succeeds. *)
Theorem from_agrees_with_some (v : Value) :
  returns (Option.from v) /\
  (Option.from v = Normal Option.none <-> v = VUndefined \/ v = VNull) /\
  (forall o, Option.some v = Normal o -> Option.from v = Normal o).
Proof.
  rewrite from_eq. split; [eexists; reflexivity |]. split.
  - destruct v; simpl;
      (split;
       [ intros H; first [discriminate H | auto]
       | intros [H | H]; first [discriminate H | reflexivity] ]).
  - intros o Hsome. destruct (some_inv v o Hsome) as (Hu & Hn & ->).
    by_payload v.
Qed.

Lemma from_agrees_with_some_witness :
  Option.from (VNum 0) = Normal {| Option.value := VNum 0 |}.
Proof.
  apply (from_agrees_with_some (VNum 0)). reflexivity.
Defined.

(** X14.  Reading [Option.from(v)] back with [match] and the handlers
    [(v) => v], [() => undefined] gives [v] itself, and [undefined] when
    [v] is [undefined] or [null]. *)
Theorem from_match_round_trip (v : Value) :
  (o <- Option.from v ;; Option.match_ o read_back) =
  Normal (nullish v VUndefined).
Proof. rewrite from_eq. by_payload v. Qed.

(** X15.  [Option.from(v).or(d)] is [v ?? d]: the default replaces
    [undefined] and [null] and no other value, falsy ones included. *)
Theorem from_or_is_nullish (v d : Value) :
  (o <- Option.from v ;; ret (Option.or o d)) = Normal (nullish v d).
Proof. rewrite from_eq. by_payload v. Qed.

(** X16.  A reachable Option is rebuilt by [Option.from] from the nullable
    value [or(undefined)] reads out of it. *)
Theorem option_from_or_round_trip (o : Option.t) :
  Option.reachable o ->
  Option.from (Option.or o VUndefined) = Normal o.
Proof.
  intros Hreach. rewrite <- (reachable_from_value o Hreach).
  unfold Option.or.
  destruct (is_undefined (Option.value o)) eqn:Hvalue; [| reflexivity].
  apply is_undefined_true in Hvalue. rewrite Hvalue. reflexivity.
Qed.

Lemma option_from_or_round_trip_witness :
  Option.from (Option.or {| Option.value := VStr "" |} VUndefined) =
  Normal {| Option.value := VStr "" |}.
Proof.
  apply option_from_or_round_trip.
  apply (Option.reach_from (VStr "")). reflexivity.
Defined.

(* ===================================================================== *)
(** * Option: how the readers relate                                      *)
(* ===================================================================== *)

(** X17.  On every Option exactly one of [unwrap] and [unwrapNone]
    returns: either [unwrap] returns the held value and [unwrapNone]
    raises, or [unwrap] raises and [unwrapNone] returns [undefined]. *)
Theorem option_exactly_one_unwrap (o : Option.t) :
  (Option.unwrap o = Normal (Option.value o) /\
   Option.value o <> VUndefined /\
   Option.unwrapNone o =
     Throw (Error "Attempted to unwrap a Some value Option.")) \/
  (Option.unwrap o =
     Throw (Error "Attempted to unwrap a None value Option.") /\
   Option.unwrapNone o = Normal VUndefined).
Proof.
  unfold Option.unwrap, Option.unwrapNone.
  destruct (is_undefined (Option.value o)) eqn:Hvalue; simpl.
  - right. split; reflexivity.
  - left. apply is_undefined_false in Hvalue. repeat split. exact Hvalue.
Qed.

(** X18.  [or], [expect] and [expectNone] follow the unwrap family: [or]
    returns what [unwrap] returns and the default where it raises;
    [expect] and [expectNone] return what [unwrap] and [unwrapNone] return
    and raise where they raise, with the caller's message alone. *)
Theorem option_readers_follow_unwrap (o : Option.t) (d : Value)
    (message : string) :
  Option.or o d =
    match Option.unwrap o with Normal v => v | Throw _ => d end /\
  Option.expect o message =
    match Option.unwrap o with
    | Normal v => Normal v
    | Throw _ => Throw (Error message)
    end /\
  Option.expectNone o message =
    match Option.unwrapNone o with
    | Normal v => Normal v
    | Throw _ => Throw (Error message)
    end.
Proof.
  unfold Option.or, Option.expect, Option.expectNone,
    Option.unwrap, Option.unwrapNone.
  destruct (is_undefined (Option.value o)); repeat split.
Qed.

(* ===================================================================== *)
(** * Option.map: laws                                                    *)
(* ===================================================================== *)

(** X19.  [Option.map] raises exactly when the Option is present and the
    mapper throws on the held value, and then with the mapper's
    exception. *)
Theorem option_map_raises_iff (o : Option.t) (mapper : JSFunction)
    (x : Value) :
  Option.map o mapper = Throw x <->
  Option.isSome o = true /\ mapper [Option.value o] = Throw x.
Proof.
  unfold Option.map, Option.isSome.
  destruct (is_undefined (Option.value o)); simpl.
  - split; [discriminate | intros [H _]; discriminate H].
  - destruct (mapper [Option.value o]) as [out | y]; simpl.
    + rewrite from_eq. split; [discriminate | intros [_ H]; discriminate H].
    + split.
      * intros [= ->]. split; reflexivity.
      * intros [_ [= ->]]. reflexivity.
Qed.

(** X20.  Two successive [map]s are one [map] with the composed mapper,
    provided the first mapper does not return [undefined] or [null] on the
    held value. *)
Theorem option_map_fusion (o : Option.t) (f g : JSFunction) :
  (forall out, f [Option.value o] = Normal out ->
               out <> VUndefined /\ out <> VNull) ->
  (o' <- Option.map o f ;; Option.map o' g) = Option.map o (compose g f).
Proof.
  intros Hf. unfold Option.map at 1 3, compose.
  destruct (is_undefined (Option.value o)); simpl; [reflexivity |].
  destruct (f [Option.value o]) as [out | x]; simpl; [| reflexivity].
  destruct (Hf out eq_refl) as [Hu Hn].
  rewrite from_eq. by_payload out.
Qed.

Lemma option_map_fusion_witness :
  (o' <- Option.map {| Option.value := VNum 21 |} times_two ;;
   Option.map o' times_two) =
  Option.map {| Option.value := VNum 21 |} (compose times_two times_two).
Proof.
  apply (option_map_fusion {| Option.value := VNum 21 |} times_two times_two).
  intros out [= <-]. split; discriminate.
Defined.

(** X21.  Once a mapper returns [undefined] or [null], the chain is absent
    and the next mapper is not called: the result is [Option.none()] for
    every next mapper, also one that always throws. *)
Theorem option_map_short_circuits (o : Option.t) (f g : JSFunction)
    (out : Value) :
  f [Option.value o] = Normal out ->
  out = VUndefined \/ out = VNull ->
  (o' <- Option.map o f ;; Option.map o' g) = Normal Option.none.
Proof.
  intros Hf Hout. unfold Option.map at 1.
  destruct (is_undefined (Option.value o)); simpl; [reflexivity |].
  rewrite Hf. simpl. destruct Hout as [-> | ->]; reflexivity.
Qed.

Lemma option_map_short_circuits_witness :
  (o' <- Option.map {| Option.value := VNum 1 |} (fun _ => Normal VNull) ;;
   Option.map o' (fun _ => Throw (Error "boom"))) = Normal Option.none.
Proof.
  apply (option_map_short_circuits {| Option.value := VNum 1 |}
           (fun _ => Normal VNull) (fun _ => Throw (Error "boom")) VNull).
  - reflexivity.
  - right. reflexivity.
Defined.

(** X22.  [map] with [(x) => x] gives back a reachable Option unchanged. *)
Theorem option_map_identity (o : Option.t) :
  Option.reachable o -> Option.map o identity = Normal o.
Proof.
  intros Hreach. unfold Option.map, identity.
  destruct (is_undefined (Option.value o)) eqn:Hvalue; simpl.
  - apply is_undefined_true in Hvalue.
    destruct o as [v]. simpl in Hvalue. subst v. reflexivity.
  - exact (reachable_from_value o Hreach).
Qed.

Lemma option_map_identity_witness :
  Option.map {| Option.value := VBool false |} identity =
  Normal {| Option.value := VBool false |}.
Proof.
  apply option_map_identity.
  apply (Option.reach_some (VBool false)). reflexivity.
Defined.

(* ===================================================================== *)
(** * Option.fromAsync: settlement                                        *)
(* ===================================================================== *)

(** X23.  The promise of [Option.fromAsync] rejects exactly when the given
    promise rejects, with the same reason, and stays pending exactly when
    the given promise never settles. *)
Theorem fromAsync_settles (p : Promise Value) :
  (forall r, Option.fromAsync p = Rejected r <-> p = Rejected r) /\
  (Option.fromAsync p = Pending <-> p = Pending).
Proof.
  unfold Option.fromAsync.
  destruct p as [v | x | ]; simpl; try rewrite from_eq;
    split; try intros r; split; congruence.
Qed.
